(** * callback.hpp: a fixed-capacity, type-erased callable handle

    A shallow embedding of [Callback<R, ArgTs...>] and of the two callers it
    places in its inline buffer, followed by the properties of the handle:
    binding at construction, invocation, the unbound fallback, identity
    comparison and the compile-time size checks. *)

From stdpp Require Import base decidable numbers strings.

Local Open Scope string_scope.

(** ** Build configuration: the preprocessor symbols the header tests *)

Record build_config := BuildConfig {
  PC_BUILD : bool;
  __linux__ : bool;
  __LP64__ : bool;
  __APPLE__ : bool;
  __MACH__ : bool;
  CONFIG_CALLBACK_INCLUDE_POINT_TO_SAME : bool
}.

(** [#if defined(PC_BUILD) && (__linux__ || __LP64__ || __APPLE__ || __MACH__)] *)
Definition CALLBACK_INTERNAL_BUFFER_SIZE (cfg : build_config) : N :=
  if PC_BUILD cfg && (__linux__ cfg || __LP64__ cfg || __APPLE__ cfg || __MACH__ cfg)
  then 32%N
  else 16%N.

(** ** Types and their run-time identity *)

(** A C++ type is known to [typeid] by its name. *)
Definition type_name := string.

(** The template arguments [<R, ArgTs...>] of one instantiation. *)
Record signature := Signature {
  sig_R : type_name;
  sig_ArgTs : list type_name
}.

(** What [typeid] returns for the polymorphic classes of the header.  The
    callers are nested classes, so their identity includes the signature of
    the enclosing [Callback]. *)
Inductive type_info :=
| ti_Callback (s : signature)
| ti_FunctionCaller (s : signature)
| ti_MethodCaller (s : signature) (T : type_name).

#[global] Instance signature_eq_dec : EqDecision signature.
Proof. solve_decision. Defined.

#[global] Instance type_info_eq_dec : EqDecision type_info.
Proof. solve_decision. Defined.

(** ** Addresses *)

(** Function addresses, object addresses and member-function addresses are
    machine words; the null pointer is the word 0. *)
Definition fun_ptr := Z.
Definition obj_ptr := Z.
Definition mem_fun_ptr := Z.
Definition nullptr : Z := 0%Z.

(** ** The callers and the handle *)

(** The two classes that implement [InternalCallable], with their private
    members. *)
Inductive InternalCallable :=
| FunctionCaller (_func : fun_ptr)
| MethodCaller (T : type_name) (_obj : obj_ptr) (_method : mem_fun_ptr).

#[global] Instance InternalCallable_eq_dec : EqDecision InternalCallable.
Proof. solve_decision. Defined.

(** [uint8_t _buffer[CALLBACK_INTERNAL_BUFFER_SIZE]{}]: either still the
    zero bytes of its initializer, or the caller that placement-new put
    there. *)
Inductive buffer :=
| zero_filled
| placed (c : InternalCallable).

#[global] Instance buffer_eq_dec : EqDecision buffer.
Proof. solve_decision. Defined.

Record Callback := mkCallback {
  _callbackSet : bool;
  _buffer : buffer
}.

#[global] Instance Callback_eq_dec : EqDecision Callback.
Proof. solve_decision. Defined.

(** A [const CallbackCompare &]: an object seen through the comparison
    interface, of which only the dynamic type is known. *)
Record CallbackCompare := mkCallbackCompare {
  dynamic_type : type_info;
  object : Callback
}.

(** The return type [R]: [void], or a type [RN] together with the value of
    the cast [(RN)0]. *)
Inductive return_type : Type :=
| ret_void
| ret_nonvoid (RN : Type) (zero : RN).

Definition value_of (R : return_type) : Type :=
  match R with
  | ret_void => unit
  | ret_nonvoid RN _ => RN
  end.

(** [std::is_same<RN, void>::value] *)
Definition is_void (R : return_type) : bool :=
  match R with
  | ret_void => true
  | ret_nonvoid _ _ => false
  end.

(** ** Outcomes *)

Inductive build_error :=
| static_assertion (msg : string)
| no_member (name : string).

(** A piece of code returns, or does not build, or has undefined behaviour. *)
Inductive outcome (A : Type) :=
| Returns (a : A)
| BuildFails (e : build_error)
| Undefined.

Arguments Returns {A} a.
Arguments BuildFails {A} e.
Arguments Undefined {A}.

Declare Scope member_scope.
Delimit Scope member_scope with member.

(** ** Member functions

    A member function runs on the object [this] and on the world [W] (all
    the state outside the handle that the bound code can reach); it yields
    a value together with both states. *)
Section Members.
Context {W : Type}.

Definition member (A : Type) : Type :=
  Callback -> W -> outcome (A * Callback * W).

Definition ret {A} (a : A) : member A :=
  fun this w => Returns (a, this, w).

Definition bind {A B} (m : member A) (k : A -> member B) : member B :=
  fun this w =>
    match m this w with
    | Returns (a, this', w') => k a this' w'
    | BuildFails e => BuildFails e
    | Undefined => Undefined
    end.

Definition build_fails {A} (e : build_error) : member A :=
  fun _ _ => BuildFails e.

Definition undefined {A} : member A :=
  fun _ _ => Undefined.

(** Reading and writing the two member variables. *)
Definition load_callbackSet : member bool :=
  fun this w => Returns (_callbackSet this, this, w).

Definition store_callbackSet (v : bool) : member unit :=
  fun this w => Returns (tt, mkCallback v (_buffer this), w).

(** The default member initializer [_buffer{}]. *)
Definition zero_buffer : member unit :=
  fun this w => Returns (tt, mkCallback (_callbackSet this) zero_filled, w).

(** [new (_buffer) C(...)] *)
Definition placement_new (c : InternalCallable) : member unit :=
  fun this w => Returns (tt, mkCallback (_callbackSet this) (placed c), w).

(** Code outside the handle: it sees the world only. *)
Definition external {A} (f : W -> A * W) : member A :=
  fun this w => let (a, w') := f w in Returns (a, this, w').
End Members.

Notation "x <- m ;; k" := (bind m (fun x => k))
  (at level 100, m at next level, right associativity) : member_scope.
Notation "m ;; k" := (bind m (fun _ => k))
  (at level 100, right associativity) : member_scope.

Local Open Scope member_scope.

(** ** The class template [Callback<R, ArgTs...>] *)
Section Callback.
(** The build: preprocessor symbols and the compiler's [sizeof]. *)
Variable cfg : build_config.
Variable sizeof : type_info -> N.

(** The instantiation: the names of the template arguments, the values of
    the return type and the tuples of arguments. *)
Variable sig : signature.
Variable R : return_type.
Variable ArgTs : Type.

(** The program around the handle: its state, the function found at a
    function address, and the member function of class [T] found at a
    member-function address, run on the object at an object address. *)
Variable W : Type.
Variable function_at : fun_ptr -> ArgTs -> W -> value_of R * W.
Variable method_at : type_name -> mem_fun_ptr -> obj_ptr -> ArgTs -> W -> value_of R * W.

Local Abbreviation member := (@member W).

(** [typeid( *this )] inside [Callback<R, ArgTs...>] *)
Definition typeid_this : type_info := ti_Callback sig.

(** [typeid( *p )] for [p] an [InternalCallable *] *)
Definition typeid_callable (c : InternalCallable) : type_info :=
  match c with
  | FunctionCaller _ => ti_FunctionCaller sig
  | MethodCaller T _ _ => ti_MethodCaller sig T
  end.

(** *** Compile-time checks *)

Definition static_assert (cond : bool) (msg : string) : member unit :=
  if cond then ret tt else build_fails (static_assertion msg).

Definition _checkSizeEqual (ToCheck : type_info) (ExpectedSize : N) : member unit :=
  let RealSize := sizeof ToCheck in
  static_assert (bool_decide (ExpectedSize >= RealSize)%N) "Internal Buffer is too small!" ;;
  static_assert (bool_decide (ExpectedSize = RealSize)) "Internal Buffer is too big!".

Definition _checkSizeFit (ToCheck : type_info) (MaxSize : N) : member unit :=
  let RealSize := sizeof ToCheck in
  static_assert (bool_decide (MaxSize >= RealSize)%N) "Internal Buffer is too small!".

(** Members that exist only under
    [#ifdef CONFIG_CALLBACK_INCLUDE_POINT_TO_SAME]. *)
Definition ifdef_POINT_TO_SAME {A} (name : string) (m : member A) : member A :=
  if CONFIG_CALLBACK_INCLUDE_POINT_TO_SAME cfg then m else build_fails (no_member name).

(** *** Constructors

    A constructor runs on raw storage: it first initializes the members
    in declaration order ([_callbackSet] from the initializer list,
    [_buffer] from its default initializer), then runs its body. *)

Definition Callback_default : member unit :=
  store_callbackSet false ;;
  zero_buffer.

Definition Callback_function (func : fun_ptr) : member unit :=
  store_callbackSet true ;;
  zero_buffer ;;
  _checkSizeFit (ti_FunctionCaller sig) (CALLBACK_INTERNAL_BUFFER_SIZE cfg) ;;
  if bool_decide (func = nullptr) then
    store_callbackSet false
  else
    placement_new (FunctionCaller func).

Definition Callback_method (T : type_name) (obj : obj_ptr) (method : mem_fun_ptr)
  : member unit :=
  store_callbackSet true ;;
  zero_buffer ;;
  _checkSizeEqual (ti_MethodCaller sig T) (CALLBACK_INTERNAL_BUFFER_SIZE cfg) ;;
  if bool_decide (obj = nullptr) || bool_decide (method = nullptr) then
    store_callbackSet false
  else
    placement_new (MethodCaller T obj method).

(** *** The callers *)

Definition FunctionCaller_call (_func : fun_ptr) (args : ArgTs) : W -> value_of R * W :=
  function_at _func args.

Definition MethodCaller_call (T : type_name) (_obj : obj_ptr) (_method : mem_fun_ptr)
    (args : ArgTs) : W -> value_of R * W :=
  method_at T _method _obj args.

(** The virtual [InternalCallable::call]. *)
Definition InternalCallable_call (c : InternalCallable) (args : ArgTs)
  : W -> value_of R * W :=
  match c with
  | FunctionCaller _func => FunctionCaller_call _func args
  | MethodCaller T _obj _method => MethodCaller_call T _obj _method args
  end.

(** [tryCompare] takes a pointer: [None] is the null pointer.  The cast
    of [otherPtr] to the caller's own class happens under the [typeid]
    test only, so its other case is never taken. *)
Definition FunctionCaller_tryCompare (_func : fun_ptr) (otherPtr : option InternalCallable)
  : bool :=
  match otherPtr with
  | Some other =>
      if decide (typeid_callable other = typeid_callable (FunctionCaller _func)) then
        match other with
        | FunctionCaller otherFunc_func =>
            if decide (otherFunc_func = _func) then true else false
        | MethodCaller _ _ _ => false
        end
      else false
  | None => false
  end.

Definition MethodCaller_tryCompare (T : type_name) (_obj : obj_ptr) (_method : mem_fun_ptr)
    (otherCallable : option InternalCallable) : bool :=
  match otherCallable with
  | Some other =>
      if decide (typeid_callable other = typeid_callable (MethodCaller T _obj _method)) then
        match other with
        | MethodCaller _ otherPtr_obj otherPtr_method =>
            if decide (otherPtr_obj = _obj) then
              if decide (otherPtr_method = _method) then true else false
            else false
        | FunctionCaller _ => false
        end
      else false
  | None => false
  end.

(** The virtual [InternalCallable::tryCompare]. *)
Definition InternalCallable_tryCompare (c : InternalCallable)
    (other : option InternalCallable) : bool :=
  match c with
  | FunctionCaller _func => FunctionCaller_tryCompare _func other
  | MethodCaller T _obj _method => MethodCaller_tryCompare T _obj _method other
  end.

(** *** Member functions of the handle *)

(** [( *(InternalCallable * )_buffer)]: the caller in the buffer of
    [this].  Zero bytes hold no object, and a virtual call through them
    is undefined. *)
Definition buffer_callable : member InternalCallable :=
  fun this w =>
    match _buffer this with
    | placed c => Returns (c, this, w)
    | zero_filled => Undefined
    end.

(** [(const InternalCallable * )other._buffer]: never null, but
    dereferenced by [tryCompare], which is undefined on zero bytes. *)
Definition buffer_pointer (other : Callback) : member (option InternalCallable) :=
  match _buffer other with
  | placed c => ret (Some c)
  | zero_filled => undefined
  end.

(** The two overloads of [_call<RN, ArgTsN...>], chosen by
    [std::is_same<RN, void>], at [RN = R]. *)
Definition _call (args : ArgTs) : member (value_of R) :=
  match R as RN
    return (InternalCallable -> ArgTs -> W -> value_of RN * W) -> member (value_of RN)
  with
  | ret_nonvoid RN zero => fun virtual_call =>
      set <- load_callbackSet ;;
      if set then
        c <- buffer_callable ;;
        external (virtual_call c args)
      else
        ret zero
  | ret_void => fun virtual_call =>
      set <- load_callbackSet ;;
      if set then
        c <- buffer_callable ;;
        external (virtual_call c args) ;;
        ret tt
      else
        ret tt
  end InternalCallable_call.

Definition call (args : ArgTs) : member (value_of R) := _call args.

(** [operator()] *)
Definition operator_call (args : ArgTs) : member (value_of R) := call args.

Definition isCallbackSet : member bool := load_callbackSet.

(** [pointToSame(const Callback<R, ArgTs...> &)] *)
Definition pointToSame (other : Callback) : member bool :=
  ifdef_POINT_TO_SAME "pointToSame" (
    set <- load_callbackSet ;;
    if negb set then
      if negb (_callbackSet other) then ret true else ret false
    else
      if _callbackSet other then
        c <- buffer_callable ;;
        otherPtr <- buffer_pointer other ;;
        ret (InternalCallable_tryCompare c otherPtr)
      else ret false).

(** [pointToSame(const CallbackCompare &)] *)
Definition pointToSame_CallbackCompare (otherCallable : CallbackCompare) : member bool :=
  ifdef_POINT_TO_SAME "pointToSame" (
    if decide (dynamic_type otherCallable = typeid_this) then
      pointToSame (object otherCallable)
    else ret false).

(** [operator==(const Callback<R, ArgTs...> &)] *)
Definition operator_eq (other : Callback) : member bool :=
  ifdef_POINT_TO_SAME "operator==" (pointToSame other).

(** [operator==(const CallbackCompare &)] *)
Definition operator_eq_CallbackCompare (otherCallable : CallbackCompare) : member bool :=
  ifdef_POINT_TO_SAME "operator==" (pointToSame_CallbackCompare otherCallable).

(** A handle of this class seen through [CallbackCompare]. *)
Definition as_CallbackCompare (cb : Callback) : CallbackCompare :=
  mkCallbackCompare typeid_this cb.
End Callback.

(** ** The [callback(...)] helpers

    Each helper returns the handle its constructor call builds: the
    constructor runs on the storage of the returned object. *)

(** [callback(R ( *func)(ArgTs...))] *)
Definition callback_function {W} (cfg : build_config) (sizeof : type_info -> N)
    (sig : signature) (func : fun_ptr) : @member W unit :=
  Callback_function cfg sizeof sig W func.

(** [callback(T *obj, R (T::*method)(ArgTs...))] *)
Definition callback_pointer {W} (cfg : build_config) (sizeof : type_info -> N)
    (sig : signature) (T : type_name) (obj : obj_ptr) (method : mem_fun_ptr)
  : @member W unit :=
  Callback_method cfg sizeof sig W T obj method.

(** [callback(T &obj, R (T::*method)(ArgTs...))]: a reference is given by
    the address of the object it refers to, and [&obj] is that address. *)
Definition callback_reference {W} (cfg : build_config) (sizeof : type_info -> N)
    (sig : signature) (T : type_name) (obj : obj_ptr) (method : mem_fun_ptr)
  : @member W unit :=
  let address_of_obj := obj in
  Callback_method cfg sizeof sig W T address_of_obj method.

(** ** Ways to obtain a handle, and what may be done with one *)

(** The arguments of the three constructors (the [callback(...)] helpers of
    the header forward to the last two). *)
Inductive binding :=
| from_nothing
| from_function (func : fun_ptr)
| from_method (T : type_name) (obj : obj_ptr) (method : mem_fun_ptr).

Definition construct {W} (cfg : build_config) (sizeof : type_info -> N) (sig : signature)
    (b : binding) : @member W unit :=
  match b with
  | from_nothing => Callback_default W
  | from_function func => Callback_function cfg sizeof sig W func
  | from_method T obj method => Callback_method cfg sizeof sig W T obj method
  end.

(** The constructor was given a null pointer, or nothing at all. *)
Definition null_binding (b : binding) : Prop :=
  match b with
  | from_nothing => True
  | from_function func => func = nullptr
  | from_method _ obj method => obj = nullptr \/ method = nullptr
  end.

(** The constructor call passes the size check of its body, so that the
    program builds. *)
Definition builds (cfg : build_config) (sizeof : type_info -> N) (sig : signature)
    (b : binding) : Prop :=
  match b with
  | from_nothing => True
  | from_function _ =>
      (sizeof (ti_FunctionCaller sig) <= CALLBACK_INTERNAL_BUFFER_SIZE cfg)%N
  | from_method T _ _ =>
      sizeof (ti_MethodCaller sig T) = CALLBACK_INTERNAL_BUFFER_SIZE cfg
  end.

(** The state the constructors leave behind: the flag is set exactly when a
    caller was placed, and a placed caller holds no null pointer. *)
Definition well_formed (cb : Callback) : bool :=
  match _callbackSet cb, _buffer cb with
  | false, zero_filled => true
  | true, placed (FunctionCaller f) => negb (bool_decide (f = nullptr))
  | true, placed (MethodCaller _ obj method) =>
      negb (bool_decide (obj = nullptr)) && negb (bool_decide (method = nullptr))
  | _, _ => false
  end.

(** What a member function gave back, without the two states. *)
Definition result {A W} (o : outcome (A * Callback * W)) : outcome A :=
  match o with
  | Returns (a, _, _) => Returns a
  | BuildFails e => BuildFails e
  | Undefined => Undefined
  end.

(** Every public member function that can be applied to a constructed
    handle, and the value a caller observes from it. *)
Inductive operation (ArgTs : Type) :=
| do_call (args : ArgTs)
| do_operator_call (args : ArgTs)
| do_isCallbackSet
| do_pointToSame (other : Callback)
| do_pointToSame_CallbackCompare (otherCallable : CallbackCompare)
| do_operator_eq (other : Callback)
| do_operator_eq_CallbackCompare (otherCallable : CallbackCompare).

Arguments do_call {ArgTs} args.
Arguments do_operator_call {ArgTs} args.
Arguments do_isCallbackSet {ArgTs}.
Arguments do_pointToSame {ArgTs} other.
Arguments do_pointToSame_CallbackCompare {ArgTs} otherCallable.
Arguments do_operator_eq {ArgTs} other.
Arguments do_operator_eq_CallbackCompare {ArgTs} otherCallable.

Inductive observation (V : Type) :=
| returned (v : V)
| answered (b : bool).

Arguments returned {V} v.
Arguments answered {V} b.

Section Use.
Variable cfg : build_config.
Variable sig : signature.
Variable R : return_type.
Variable ArgTs : Type.
Variable W : Type.
Variable function_at : fun_ptr -> ArgTs -> W -> value_of R * W.
Variable method_at : type_name -> mem_fun_ptr -> obj_ptr -> ArgTs -> W -> value_of R * W.

Definition perform (op : operation ArgTs) : @member W (observation (value_of R)) :=
  match op with
  | do_call args =>
      v <- call R ArgTs W function_at method_at args ;; ret (returned v)
  | do_operator_call args =>
      v <- operator_call R ArgTs W function_at method_at args ;; ret (returned v)
  | do_isCallbackSet =>
      b <- isCallbackSet W ;; ret (answered b)
  | do_pointToSame other =>
      b <- pointToSame cfg sig W other ;; ret (answered b)
  | do_pointToSame_CallbackCompare otherCallable =>
      b <- pointToSame_CallbackCompare cfg sig W otherCallable ;; ret (answered b)
  | do_operator_eq other =>
      b <- operator_eq cfg sig W other ;; ret (answered b)
  | do_operator_eq_CallbackCompare otherCallable =>
      b <- operator_eq_CallbackCompare cfg sig W otherCallable ;; ret (answered b)
  end.

(** A sequence of uses of one handle, one after the other. *)
Fixpoint perform_all (ops : list (operation ArgTs))
  : @member W (list (observation (value_of R))) :=
  match ops with
  | [] => ret []
  | op :: rest =>
      o <- perform op ;;
      os <- perform_all rest ;;
      ret (o :: os)
  end.
End Use.

(** ** A small program using the header

    A 64-bit PC build with comparison enabled, and handles of signature
    [int(int, int)].  The world is a log of the calls made so far. *)
Module Program.
Definition host : build_config :=
  {| PC_BUILD := true; __linux__ := true; __LP64__ := true;
     __APPLE__ := false; __MACH__ := false;
     CONFIG_CALLBACK_INCLUDE_POINT_TO_SAME := true |}.

(** A vtable pointer and a function address; a vtable pointer, an object
    address and a two-word member-function address. *)
Definition host_sizeof (t : type_info) : N :=
  match t with
  | ti_Callback _ => 48%N
  | ti_FunctionCaller _ => 16%N
  | ti_MethodCaller _ _ => 32%N
  end.

(** A constrained 32-bit build, and a compiler whose member-function
    addresses take three words. *)
Definition target : build_config :=
  {| PC_BUILD := false; __linux__ := false; __LP64__ := false;
     __APPLE__ := false; __MACH__ := false;
     CONFIG_CALLBACK_INCLUDE_POINT_TO_SAME := true |}.

Definition wide_sizeof (t : type_info) : N :=
  match t with
  | ti_Callback _ => 24%N
  | ti_FunctionCaller _ => 24%N
  | ti_MethodCaller _ _ => 20%N
  end.

Definition int_int_int : signature := Signature "int" ["int"; "int"].
Definition void_int : signature := Signature "void" ["int"].

Definition int : return_type := ret_nonvoid Z 0%Z.

Definition world := list string.

Definition add : fun_ptr := 4096%Z.
Definition sub : fun_ptr := 4160%Z.
Definition counter : obj_ptr := 8192%Z.
Definition Counter_bump : mem_fun_ptr := 4224%Z.

Definition function_at (f : fun_ptr) (args : Z * Z) (w : world) : Z * world :=
  let (a, b) := args in
  if bool_decide (f = add) then ((a + b)%Z, "add" :: w)
  else if bool_decide (f = sub) then ((a - b)%Z, "sub" :: w)
  else (0%Z, "?" :: w).

Definition method_at (T : type_name) (m : mem_fun_ptr) (obj : obj_ptr) (args : Z * Z)
    (w : world) : Z * world :=
  let (a, b) := args in
  if bool_decide (T = "Counter") && bool_decide (m = Counter_bump) then
    ((obj + a * b)%Z, "Counter::bump" :: w)
  else (0%Z, "?" :: w).

Definition raw : Callback := mkCallback true (placed (FunctionCaller 1%Z)).
End Program.

(** ** Notions used to state the properties *)

(** A member function that returns leaves [this] as it found it. *)
Definition read_only {A W} (m : @member W A) : Prop :=
  forall this w a this' w', m this w = Returns (a, this', w') -> this' = this.

(** The handles an operation mentions are states the constructors leave
    behind. *)
Definition operand_ok {ArgTs} (op : operation ArgTs) : Prop :=
  match op with
  | do_call _ | do_operator_call _ | do_isCallbackSet => True
  | do_pointToSame other | do_operator_eq other => well_formed other = true
  | do_pointToSame_CallbackCompare otherCallable
  | do_operator_eq_CallbackCompare otherCallable =>
      well_formed (object otherCallable) = true
  end.

(** Running a piece of code once for each tuple of arguments, in order,
    each run starting in the world the previous one left. *)
Fixpoint run_in_order {A V W} (code : A -> W -> V * W) (argss : list A) (w : W)
  : list V * W :=
  match argss with
  | [] => ([], w)
  | args :: rest =>
      let (v, w1) := code args w in
      let (vs, w2) := run_in_order code rest w1 in
      (v :: vs, w2)
  end.

(** ** Basic facts about the compile-time checks, the constructors and [call] *)

Section Facts.
Variable cfg : build_config.
Variable sizeof : type_info -> N.
Variable sig : signature.
Variable W : Type.

Lemma static_assert_holds (msg : string) (this : Callback) (w : W) :
  static_assert W true msg this w = Returns (tt, this, w).
Proof. reflexivity. Qed.

Lemma static_assert_fails (msg : string) (this : Callback) (w : W) :
  static_assert W false msg this w = BuildFails (static_assertion msg).
Proof. reflexivity. Qed.

Lemma _checkSizeFit_spec (ToCheck : type_info) (MaxSize : N) (this : Callback) (w : W) :
  _checkSizeFit sizeof W ToCheck MaxSize this w =
    if bool_decide (sizeof ToCheck <= MaxSize)%N
    then Returns (tt, this, w)
    else BuildFails (static_assertion "Internal Buffer is too small!").
Proof.
  unfold _checkSizeFit.
  repeat case_bool_decide; try reflexivity; lia.
Qed.

Lemma _checkSizeEqual_accepts (ToCheck : type_info) (this : Callback) (w : W) :
  _checkSizeEqual sizeof W ToCheck (sizeof ToCheck) this w = Returns (tt, this, w).
Proof.
  unfold _checkSizeEqual, bind.
  rewrite !bool_decide_eq_true_2 by lia.
  reflexivity.
Qed.

Lemma _checkSizeEqual_rejects (ToCheck : type_info) (ExpectedSize : N)
    (this : Callback) (w : W) :
  sizeof ToCheck <> ExpectedSize ->
  exists msg,
    _checkSizeEqual sizeof W ToCheck ExpectedSize this w = BuildFails (static_assertion msg).
Proof.
  intros Hne. unfold _checkSizeEqual, bind.
  case_bool_decide; simpl.
  - rewrite bool_decide_eq_false_2 by congruence. eauto.
  - eauto.
Qed.

Lemma Callback_default_spec (raw : Callback) (w : W) :
  Callback_default W raw w = Returns (tt, mkCallback false zero_filled, w).
Proof. reflexivity. Qed.

Lemma Callback_function_spec (func : fun_ptr) (raw : Callback) (w : W) :
  Callback_function cfg sizeof sig W func raw w =
    if bool_decide (sizeof (ti_FunctionCaller sig) <= CALLBACK_INTERNAL_BUFFER_SIZE cfg)%N
    then
      if bool_decide (func = nullptr)
      then Returns (tt, mkCallback false zero_filled, w)
      else Returns (tt, mkCallback true (placed (FunctionCaller func)), w)
    else BuildFails (static_assertion "Internal Buffer is too small!").
Proof.
  unfold Callback_function, bind; simpl.
  rewrite _checkSizeFit_spec.
  repeat case_bool_decide; reflexivity.
Qed.

Lemma Callback_method_fits (T : type_name) (obj : obj_ptr) (method : mem_fun_ptr)
    (raw : Callback) (w : W) :
  sizeof (ti_MethodCaller sig T) = CALLBACK_INTERNAL_BUFFER_SIZE cfg ->
  Callback_method cfg sizeof sig W T obj method raw w =
    if bool_decide (obj = nullptr) || bool_decide (method = nullptr)
    then Returns (tt, mkCallback false zero_filled, w)
    else Returns (tt, mkCallback true (placed (MethodCaller T obj method)), w).
Proof.
  intros Hsize. unfold Callback_method, bind; simpl.
  rewrite <- Hsize, _checkSizeEqual_accepts.
  destruct (_ || _); reflexivity.
Qed.

Lemma Callback_method_rejects (T : type_name) (obj : obj_ptr) (method : mem_fun_ptr)
    (raw : Callback) (w : W) :
  sizeof (ti_MethodCaller sig T) <> CALLBACK_INTERNAL_BUFFER_SIZE cfg ->
  exists msg,
    Callback_method cfg sizeof sig W T obj method raw w =
      BuildFails (static_assertion msg).
Proof.
  intros Hsize. unfold Callback_method, bind; simpl.
  destruct (_checkSizeEqual_rejects (ti_MethodCaller sig T) _
              (mkCallback true zero_filled) w Hsize) as [msg ->].
  eauto.
Qed.

(** Whatever a constructor returns is well formed, and the world is as
    it was. *)
Lemma construct_well_formed (b : binding) (raw cb : Callback) (w w' : W) :
  construct cfg sizeof sig b raw w = Returns (tt, cb, w') ->
  well_formed cb = true /\ w' = w.
Proof.
  destruct b as [|func|T obj method]; simpl.
  - rewrite Callback_default_spec. intros [= <- <-]. auto.
  - rewrite Callback_function_spec.
    repeat case_bool_decide; intros [= <- <-]; split; try reflexivity.
    unfold well_formed; simpl. rewrite bool_decide_eq_false_2; auto.
  - destruct (decide (sizeof (ti_MethodCaller sig T) = CALLBACK_INTERNAL_BUFFER_SIZE cfg))
      as [Hsize|Hsize].
    + rewrite Callback_method_fits by assumption.
      repeat case_bool_decide; simpl; intros [= <- <-]; split; try reflexivity.
      unfold well_formed; simpl. rewrite !bool_decide_eq_false_2; auto.
    + destruct (Callback_method_rejects T obj method raw w Hsize) as [msg ->].
      discriminate.
Qed.

Variable R : return_type.
Variable ArgTs : Type.
Variable function_at : fun_ptr -> ArgTs -> W -> value_of R * W.
Variable method_at : type_name -> mem_fun_ptr -> obj_ptr -> ArgTs -> W -> value_of R * W.

Lemma call_bound (c : InternalCallable) (args : ArgTs) (w : W) :
  call R ArgTs W function_at method_at args (mkCallback true (placed c)) w =
    let (r, w') := InternalCallable_call R ArgTs W function_at method_at c args w in
    Returns (r, mkCallback true (placed c), w').
Proof.
  unfold call, _call.
  generalize (InternalCallable_call R ArgTs W function_at method_at).
  destruct R; intros virtual_call; unfold bind, external; simpl;
    destruct (virtual_call c args w) as [r w']; try destruct r; reflexivity.
Qed.
End Facts.

(** ** Binding at construction, and invocation *)

(** C1: for every non-null function address [f], in a build where the
    function caller fits the buffer, the constructor from [f] returns a
    handle whose [isCallbackSet()] is true, and [call] (and [operator()])
    with any arguments [a] does exactly what [f(a)] does: same value, same
    effect on the world. *)
Theorem function_handle_calls_function
    (cfg : build_config) (sizeof : type_info -> N) (sig : signature)
    (R : return_type) (ArgTs W : Type)
    (function_at : fun_ptr -> ArgTs -> W -> value_of R * W)
    (method_at : type_name -> mem_fun_ptr -> obj_ptr -> ArgTs -> W -> value_of R * W)
    (f : fun_ptr) (raw : Callback) (w : W) :
  f <> nullptr ->
  (sizeof (ti_FunctionCaller sig) <= CALLBACK_INTERNAL_BUFFER_SIZE cfg)%N ->
  exists cb,
    Callback_function cfg sizeof sig W f raw w = Returns (tt, cb, w) /\
    (forall w0, isCallbackSet W cb w0 = Returns (true, cb, w0)) /\
    (forall a w0,
       call R ArgTs W function_at method_at a cb w0 =
         let (r, w1) := function_at f a w0 in Returns (r, cb, w1)) /\
    (forall a w0,
       operator_call R ArgTs W function_at method_at a cb w0 =
         let (r, w1) := function_at f a w0 in Returns (r, cb, w1)).
Proof.
  intros Hf Hsize.
  exists (mkCallback true (placed (FunctionCaller f))).
  split; [|split; [|split]].
  - rewrite Callback_function_spec.
    rewrite bool_decide_eq_true_2 by assumption.
    rewrite bool_decide_eq_false_2 by assumption.
    reflexivity.
  - reflexivity.
  - intros a w0. apply call_bound.
  - intros a w0. unfold operator_call. apply call_bound.
Qed.

Lemma function_handle_calls_function_witness :
  Program.add <> nullptr /\
  (Program.host_sizeof (ti_FunctionCaller Program.int_int_int)
     <= CALLBACK_INTERNAL_BUFFER_SIZE Program.host)%N /\
  exists cb,
    Callback_function Program.host Program.host_sizeof Program.int_int_int
      Program.world Program.add Program.raw [] = Returns (tt, cb, []) /\
    (forall w0, isCallbackSet Program.world cb w0 = Returns (true, cb, w0)) /\
    (forall a w0,
       call Program.int (Z * Z) Program.world Program.function_at Program.method_at a cb w0 =
         let (r, w1) := Program.function_at Program.add a w0 in Returns (r, cb, w1)) /\
    (forall a w0,
       operator_call Program.int (Z * Z) Program.world
         Program.function_at Program.method_at a cb w0 =
         let (r, w1) := Program.function_at Program.add a w0 in Returns (r, cb, w1)).
Proof.
  assert (H1 : Program.add <> nullptr) by (vm_compute; discriminate).
  assert (H2 : (Program.host_sizeof (ti_FunctionCaller Program.int_int_int)
                  <= CALLBACK_INTERNAL_BUFFER_SIZE Program.host)%N)
    by (vm_compute; discriminate).
  split; [exact H1|]. split; [exact H2|].
  exact (function_handle_calls_function Program.host Program.host_sizeof
           Program.int_int_int Program.int (Z * Z) Program.world
           Program.function_at Program.method_at Program.add Program.raw [] H1 H2).
Defined.

(** The scenario of the header's users: [h1] built from [int add(int, int)]
    gives [h1.call(2, 3) == 5], and the call is the only thing that
    happened. *)
Example h1_call_2_3 :
  exists h1,
    Callback_function Program.host Program.host_sizeof Program.int_int_int
      Program.world Program.add Program.raw [] = Returns (tt, h1, []) /\
    call Program.int (Z * Z) Program.world Program.function_at Program.method_at
      (2, 3)%Z h1 [] = Returns (5%Z, h1, ["add"]).
Proof. eexists. split; reflexivity. Qed.

(** C2: for every non-null object address and non-null member-function
    address of a class [T], in a build where the method caller for [T] has
    exactly the size of the buffer, the constructor from the pair returns a
    handle whose [isCallbackSet()] is true, and [call] (and [operator()])
    with any arguments [a] does exactly what that member function does on
    that object with [a]. *)
Theorem method_handle_calls_method
    (cfg : build_config) (sizeof : type_info -> N) (sig : signature)
    (R : return_type) (ArgTs W : Type)
    (function_at : fun_ptr -> ArgTs -> W -> value_of R * W)
    (method_at : type_name -> mem_fun_ptr -> obj_ptr -> ArgTs -> W -> value_of R * W)
    (T : type_name) (obj : obj_ptr) (method : mem_fun_ptr) (raw : Callback) (w : W) :
  obj <> nullptr ->
  method <> nullptr ->
  sizeof (ti_MethodCaller sig T) = CALLBACK_INTERNAL_BUFFER_SIZE cfg ->
  exists cb,
    Callback_method cfg sizeof sig W T obj method raw w = Returns (tt, cb, w) /\
    (forall w0, isCallbackSet W cb w0 = Returns (true, cb, w0)) /\
    (forall a w0,
       call R ArgTs W function_at method_at a cb w0 =
         let (r, w1) := method_at T method obj a w0 in Returns (r, cb, w1)) /\
    (forall a w0,
       operator_call R ArgTs W function_at method_at a cb w0 =
         let (r, w1) := method_at T method obj a w0 in Returns (r, cb, w1)).
Proof.
  intros Hobj Hmethod Hsize.
  exists (mkCallback true (placed (MethodCaller T obj method))).
  split; [|split; [|split]].
  - rewrite Callback_method_fits by assumption.
    rewrite !bool_decide_eq_false_2 by assumption.
    reflexivity.
  - reflexivity.
  - intros a w0. apply call_bound.
  - intros a w0. unfold operator_call. apply call_bound.
Qed.

Lemma method_handle_calls_method_witness :
  exists cb,
    Callback_method Program.host Program.host_sizeof Program.int_int_int
      Program.world "Counter" Program.counter Program.Counter_bump Program.raw []
      = Returns (tt, cb, []) /\
    (forall w0, isCallbackSet Program.world cb w0 = Returns (true, cb, w0)) /\
    (forall a w0,
       call Program.int (Z * Z) Program.world Program.function_at Program.method_at a cb w0 =
         let (r, w1) := Program.method_at "Counter" Program.Counter_bump Program.counter a w0
         in Returns (r, cb, w1)) /\
    (forall a w0,
       operator_call Program.int (Z * Z) Program.world
         Program.function_at Program.method_at a cb w0 =
         let (r, w1) := Program.method_at "Counter" Program.Counter_bump Program.counter a w0
         in Returns (r, cb, w1)).
Proof.
  apply (method_handle_calls_method Program.host Program.host_sizeof
           Program.int_int_int Program.int (Z * Z) Program.world
           Program.function_at Program.method_at
           "Counter" Program.counter Program.Counter_bump Program.raw []).
  - vm_compute; discriminate.
  - vm_compute; discriminate.
  - reflexivity.
Defined.

(** C3: a handle built from a null function address, or from a pair whose
    object address or member-function address is null, or by the default
    constructor, has [isCallbackSet()] false and a buffer in which no
    caller was placed, whatever the storage held before. *)
Theorem null_binding_leaves_unbound
    (cfg : build_config) (sizeof : type_info -> N) (sig : signature) (W : Type)
    (b : binding) (raw : Callback) (w : W) :
  null_binding b ->
  builds cfg sizeof sig b ->
  exists cb,
    construct cfg sizeof sig b raw w = Returns (tt, cb, w) /\
    (forall w0, isCallbackSet W cb w0 = Returns (false, cb, w0)) /\
    _buffer cb = zero_filled.
Proof.
  intros Hnull Hbuilds.
  exists (mkCallback false zero_filled).
  split; [|split]; try reflexivity.
  destruct b as [|func|T obj method]; simpl in *.
  - apply Callback_default_spec.
  - rewrite Callback_function_spec.
    rewrite !bool_decide_eq_true_2 by assumption. reflexivity.
  - rewrite Callback_method_fits by assumption.
    destruct Hnull as [-> | ->].
    + reflexivity.
    + rewrite orb_true_r. reflexivity.
Qed.

Lemma null_binding_leaves_unbound_witness :
  exists cb,
    construct Program.host Program.host_sizeof Program.int_int_int
      (from_method "Counter" Program.counter nullptr) Program.raw ([] : Program.world)
      = Returns (tt, cb, []) /\
    (forall w0, isCallbackSet Program.world cb w0 = Returns (false, cb, w0)) /\
    _buffer cb = zero_filled.
Proof.
  apply (null_binding_leaves_unbound Program.host Program.host_sizeof
           Program.int_int_int Program.world
           (from_method "Counter" Program.counter nullptr) Program.raw []).
  - simpl. right. reflexivity.
  - reflexivity.
Defined.

(** C4: on a handle whose flag is not set, [call] with any arguments leaves
    the world (and the handle) as they were; it returns [(R)0] when [R] is
    not [void], and just returns when [R] is [void].  The bound code is
    never consulted: the result is the same for every program. *)
Theorem unbound_call_returns_zero (ArgTs W : Type) (cb : Callback) :
  _callbackSet cb = false ->
  (forall (RN : Type) (zero : RN)
          (function_at : fun_ptr -> ArgTs -> W -> RN * W)
          (method_at : type_name -> mem_fun_ptr -> obj_ptr -> ArgTs -> W -> RN * W)
          (a : ArgTs) (w : W),
     call (ret_nonvoid RN zero) ArgTs W function_at method_at a cb w
       = Returns (zero, cb, w)) /\
  (forall (function_at : fun_ptr -> ArgTs -> W -> unit * W)
          (method_at : type_name -> mem_fun_ptr -> obj_ptr -> ArgTs -> W -> unit * W)
          (a : ArgTs) (w : W),
     call ret_void ArgTs W function_at method_at a cb w = Returns (tt, cb, w)).
Proof.
  intros Hunset.
  split; intros; unfold call, _call, bind, load_callbackSet;
    rewrite Hunset; reflexivity.
Qed.

Lemma unbound_call_returns_zero_witness :
  (forall (RN : Type) (zero : RN)
          (function_at : fun_ptr -> Z * Z -> Program.world -> RN * Program.world)
          (method_at : type_name -> mem_fun_ptr -> obj_ptr -> Z * Z -> Program.world
                       -> RN * Program.world)
          (a : Z * Z) (w : Program.world),
     call (ret_nonvoid RN zero) (Z * Z) Program.world function_at method_at a
       (mkCallback false zero_filled) w
       = Returns (zero, mkCallback false zero_filled, w)) /\
  (forall (function_at : fun_ptr -> Z * Z -> Program.world -> unit * Program.world)
          (method_at : type_name -> mem_fun_ptr -> obj_ptr -> Z * Z -> Program.world
                       -> unit * Program.world)
          (a : Z * Z) (w : Program.world),
     call ret_void (Z * Z) Program.world function_at method_at a
       (mkCallback false zero_filled) w
       = Returns (tt, mkCallback false zero_filled, w)).
Proof.
  apply (unbound_call_returns_zero (Z * Z) Program.world (mkCallback false zero_filled)).
  reflexivity.
Defined.

(** ** Identity comparison *)

Section Comparison.
Variable cfg : build_config.
Variable sig : signature.
Variable W : Type.

(** On a non-null pointer, [tryCompare] answers whether the two callers
    are of the same class and hold the same addresses. *)
Lemma InternalCallable_tryCompare_Some (c other : InternalCallable) :
  InternalCallable_tryCompare sig c (Some other) = bool_decide (other = c).
Proof.
  destruct c as [f|T obj method], other as [f'|T' obj' method']; simpl;
    repeat case_decide; repeat case_bool_decide; congruence.
Qed.

Lemma pointToSame_unfold (other this : Callback) (w : W) :
  pointToSame cfg sig W other this w =
    if CONFIG_CALLBACK_INCLUDE_POINT_TO_SAME cfg then
      match _callbackSet this, _callbackSet other with
      | false, false => Returns (true, this, w)
      | false, true | true, false => Returns (false, this, w)
      | true, true =>
          match _buffer this, _buffer other with
          | placed c, placed c' => Returns (bool_decide (c' = c), this, w)
          | _, _ => Undefined
          end
      end
    else BuildFails (no_member "pointToSame").
Proof.
  unfold pointToSame, ifdef_POINT_TO_SAME, build_fails.
  destruct (CONFIG_CALLBACK_INCLUDE_POINT_TO_SAME cfg); [|reflexivity].
  unfold bind, load_callbackSet, buffer_callable, buffer_pointer, undefined, ret.
  destruct this as [[] [|c]], other as [[] [|c']]; simpl; try reflexivity.
  rewrite InternalCallable_tryCompare_Some. reflexivity.
Qed.

Lemma pointToSame_CallbackCompare_unfold (otherCallable : CallbackCompare)
    (this : Callback) (w : W) :
  pointToSame_CallbackCompare cfg sig W otherCallable this w =
    if CONFIG_CALLBACK_INCLUDE_POINT_TO_SAME cfg then
      if decide (dynamic_type otherCallable = ti_Callback sig)
      then pointToSame cfg sig W (object otherCallable) this w
      else Returns (false, this, w)
    else BuildFails (no_member "pointToSame").
Proof.
  unfold pointToSame_CallbackCompare, ifdef_POINT_TO_SAME, build_fails, typeid_this.
  destruct (CONFIG_CALLBACK_INCLUDE_POINT_TO_SAME cfg); [|reflexivity].
  case_decide; reflexivity.
Qed.

Lemma operator_eq_unfold (other this : Callback) (w : W) :
  CONFIG_CALLBACK_INCLUDE_POINT_TO_SAME cfg = true ->
  operator_eq cfg sig W other this w = pointToSame cfg sig W other this w.
Proof. intros H. unfold operator_eq, ifdef_POINT_TO_SAME at 1. rewrite H. reflexivity. Qed.

Lemma operator_eq_CallbackCompare_unfold (otherCallable : CallbackCompare)
    (this : Callback) (w : W) :
  CONFIG_CALLBACK_INCLUDE_POINT_TO_SAME cfg = true ->
  operator_eq_CallbackCompare cfg sig W otherCallable this w =
    pointToSame_CallbackCompare cfg sig W otherCallable this w.
Proof.
  intros H. unfold operator_eq_CallbackCompare, ifdef_POINT_TO_SAME at 1.
  rewrite H. reflexivity.
Qed.

(** The answer of a comparison does not depend on the world. *)
Lemma pointToSame_any_world (other this : Callback) (w w' : W) :
  result (pointToSame cfg sig W other this w) =
  result (pointToSame cfg sig W other this w').
Proof.
  rewrite !pointToSame_unfold.
  destruct (CONFIG_CALLBACK_INCLUDE_POINT_TO_SAME cfg), this as [[] [|c]],
    other as [[] [|c']]; reflexivity.
Qed.

(** The three shapes of a constructed handle. *)
Lemma construct_cases (sizeof : type_info -> N) (b : binding) (raw cb : Callback)
    (w w' : W) :
  construct cfg sizeof sig b raw w = Returns (tt, cb, w') ->
  (null_binding b /\ cb = mkCallback false zero_filled) \/
  (exists f, f <> nullptr /\ b = from_function f /\
             cb = mkCallback true (placed (FunctionCaller f))) \/
  (exists T obj method, obj <> nullptr /\ method <> nullptr /\
             b = from_method T obj method /\
             cb = mkCallback true (placed (MethodCaller T obj method))).
Proof.
  destruct b as [|func|T obj method]; simpl.
  - rewrite Callback_default_spec. intros [= <- <-]. left. auto.
  - rewrite Callback_function_spec.
    repeat case_bool_decide; intros [= <- <-].
    + left. auto.
    + right. left. eauto.
  - destruct (decide (sizeof (ti_MethodCaller sig T) = CALLBACK_INTERNAL_BUFFER_SIZE cfg))
      as [Hsize|Hsize].
    + rewrite Callback_method_fits by assumption.
      repeat case_bool_decide; simpl; intros [= <- <-].
      * left. auto.
      * left. auto.
      * left. auto.
      * right. right. exists T, obj, method. auto.
    + destruct (Callback_method_rejects cfg sizeof sig W T obj method raw w Hsize)
        as [msg ->].
      discriminate.
Qed.
End Comparison.

(** None of the three ways of pointing to the same destination applies. *)
Ltac refute_disjuncts :=
  intros [[? ?] | [(? & ? & ? & ?) | (? & ? & ? & ? & ? & ? & ?)]];
  simplify_eq; simpl in *; intuition congruence.

(** C5: with identity comparison enabled, for two handles of one signature
    built by the constructors, [pointToSame] (and [operator==], which
    forwards to it) returns, leaves both the handle and the world alone,
    and its answer is true exactly when both handles are unbound, or both
    were built from the same non-null function address, or both were built
    from the same pair of a non-null object address and a non-null
    member-function address; in every other case the answer is false. *)
Theorem pointToSame_iff_same_destination
    (cfg : build_config) (sizeof : type_info -> N) (sig : signature) (W : Type)
    (x y : binding) (raw_a raw_b a b : Callback) (wa wa' wb wb' w : W) :
  CONFIG_CALLBACK_INCLUDE_POINT_TO_SAME cfg = true ->
  construct cfg sizeof sig x raw_a wa = Returns (tt, a, wa') ->
  construct cfg sizeof sig y raw_b wb = Returns (tt, b, wb') ->
  exists r : bool,
    pointToSame cfg sig W b a w = Returns (r, a, w) /\
    operator_eq cfg sig W b a w = Returns (r, a, w) /\
    (r = true <->
       (_callbackSet a = false /\ _callbackSet b = false) \/
       (exists f, f <> nullptr /\ x = from_function f /\ y = from_function f) \/
       (exists T obj method,
          obj <> nullptr /\ method <> nullptr /\
          x = from_method T obj method /\ y = from_method T obj method)).
Proof.
  intros Henabled Ha Hb.
  rewrite operator_eq_unfold by assumption.
  rewrite pointToSame_unfold, Henabled.
  apply construct_cases in Ha, Hb.
  destruct Ha as [[Hx ->] | [(f & Hf & -> & ->) | (T & o & m & Ho & Hm & -> & ->)]];
    destruct Hb as [[Hy ->] | [(f' & Hf' & -> & ->) | (T' & o' & m' & Ho' & Hm' & -> & ->)]];
    simpl; eexists; (split; [reflexivity|]); (split; [reflexivity|]).
  all: try case_bool_decide; simplify_eq.
  all: try (split; [discriminate|]; refute_disjuncts).
  - split; [|reflexivity]. intros _. left. split; reflexivity.
  - split; [|reflexivity]. intros _. right. left. eauto.
  - split; [|reflexivity]. intros _. right. right. exists T, o, m. auto.
Qed.

Lemma pointToSame_iff_same_destination_witness :
  exists r : bool,
    pointToSame Program.host Program.int_int_int Program.world
      (mkCallback true (placed (FunctionCaller Program.add)))
      (mkCallback true (placed (FunctionCaller Program.add))) ["add"]
      = Returns (r, mkCallback true (placed (FunctionCaller Program.add)), ["add"]) /\
    operator_eq Program.host Program.int_int_int Program.world
      (mkCallback true (placed (FunctionCaller Program.add)))
      (mkCallback true (placed (FunctionCaller Program.add))) ["add"]
      = Returns (r, mkCallback true (placed (FunctionCaller Program.add)), ["add"]) /\
    (r = true <->
       (true = false /\ true = false) \/
       (exists f, f <> nullptr /\
                  from_function Program.add = from_function f /\
                  from_function Program.add = from_function f) \/
       (exists T obj method,
          obj <> nullptr /\ method <> nullptr /\
          from_function Program.add = from_method T obj method /\
          from_function Program.add = from_method T obj method)).
Proof.
  apply (pointToSame_iff_same_destination Program.host Program.host_sizeof
           Program.int_int_int Program.world
           (from_function Program.add) (from_function Program.add)
           Program.raw (mkCallback false zero_filled)
           (mkCallback true (placed (FunctionCaller Program.add)))
           (mkCallback true (placed (FunctionCaller Program.add)))
           [] [] ["x"] ["x"] ["add"]).
  - reflexivity.
  - reflexivity.
  - reflexivity.
Defined.

(** The comparisons of the header's scenario: [h1] and [h3] built from the
    same [add], [h2] built from nothing. *)
Example h1_eq_h2_false_h1_eq_h3_true :
  let h1 := mkCallback true (placed (FunctionCaller Program.add)) in
  let h2 := mkCallback false zero_filled in
  let h3 := mkCallback true (placed (FunctionCaller Program.add)) in
  result (operator_eq Program.host Program.int_int_int Program.world h2 h1 [])
    = Returns false /\
  result (operator_eq Program.host Program.int_int_int Program.world h3 h1 [])
    = Returns true.
Proof. split; reflexivity. Qed.

(** C6: with identity comparison enabled, comparing a handle with an object
    seen through [CallbackCompare] whose dynamic type is a [Callback] of
    another signature returns false ([pointToSame] and [operator==]
    alike): it does not fail, and it does not depend on what either handle
    holds, not even on whether their buffers hold a caller at all, since
    the type is tested before any member is read. *)
Theorem other_signature_never_same
    (cfg : build_config) (sig sig' : signature) (W : Type)
    (this other : Callback) (w : W) :
  CONFIG_CALLBACK_INCLUDE_POINT_TO_SAME cfg = true ->
  sig' <> sig ->
  pointToSame_CallbackCompare cfg sig W (as_CallbackCompare sig' other) this w
    = Returns (false, this, w) /\
  operator_eq_CallbackCompare cfg sig W (as_CallbackCompare sig' other) this w
    = Returns (false, this, w).
Proof.
  intros Henabled Hsig.
  rewrite operator_eq_CallbackCompare_unfold by assumption.
  rewrite pointToSame_CallbackCompare_unfold, Henabled.
  unfold as_CallbackCompare, typeid_this; simpl.
  rewrite decide_False by congruence.
  split; reflexivity.
Qed.

Lemma other_signature_never_same_witness :
  pointToSame_CallbackCompare Program.host Program.int_int_int Program.world
    (as_CallbackCompare Program.void_int
       (mkCallback true (placed (FunctionCaller Program.add))))
    (mkCallback true (placed (FunctionCaller Program.add))) []
    = Returns (false, mkCallback true (placed (FunctionCaller Program.add)), []) /\
  operator_eq_CallbackCompare Program.host Program.int_int_int Program.world
    (as_CallbackCompare Program.void_int
       (mkCallback true (placed (FunctionCaller Program.add))))
    (mkCallback true (placed (FunctionCaller Program.add))) []
    = Returns (false, mkCallback true (placed (FunctionCaller Program.add)), []).
Proof.
  apply (other_signature_never_same Program.host Program.int_int_int Program.void_int
           Program.world).
  - reflexivity.
  - vm_compute. discriminate.
Defined.

(** C9: [tryCompare] guards itself.  For either caller it returns false
    when the other pointer is null, and false when the object behind the
    other pointer is of another class than the caller's own (a function
    caller against a method caller, or method callers for two classes),
    whatever addresses the two hold. *)
Theorem tryCompare_guards_itself (sig : signature) (c other : InternalCallable) :
  InternalCallable_tryCompare sig c None = false /\
  (typeid_callable sig other <> typeid_callable sig c ->
   InternalCallable_tryCompare sig c (Some other) = false).
Proof.
  split.
  - destruct c; reflexivity.
  - intros Htype.
    destruct c as [f|T obj method]; simpl; rewrite decide_False by assumption;
      reflexivity.
Qed.

Lemma tryCompare_guards_itself_witness :
  InternalCallable_tryCompare Program.int_int_int
    (MethodCaller "Counter" Program.counter Program.Counter_bump) None = false /\
  InternalCallable_tryCompare Program.int_int_int
    (MethodCaller "Counter" Program.counter Program.Counter_bump)
    (Some (FunctionCaller Program.counter)) = false.
Proof.
  destruct (tryCompare_guards_itself Program.int_int_int
              (MethodCaller "Counter" Program.counter Program.Counter_bump)
              (FunctionCaller Program.counter)) as [Hnull Hother].
  split; [exact Hnull|].
  apply Hother. vm_compute. discriminate.
Defined.

(** C10: comparison of two handles of one signature is symmetric: whatever
    [a.pointToSame(b)] gives back, [b.pointToSame(a)] gives back the same;
    and for handles as the constructors leave them, with comparison
    enabled, both return the same truth value. *)
Theorem pointToSame_symmetric
    (cfg : build_config) (sig : signature) (W : Type) (a b : Callback) (w : W) :
  result (pointToSame cfg sig W b a w) = result (pointToSame cfg sig W a b w) /\
  (CONFIG_CALLBACK_INCLUDE_POINT_TO_SAME cfg = true ->
   well_formed a = true -> well_formed b = true ->
   exists r : bool,
     pointToSame cfg sig W b a w = Returns (r, a, w) /\
     pointToSame cfg sig W a b w = Returns (r, b, w)).
Proof.
  rewrite !pointToSame_unfold.
  split.
  - destruct (CONFIG_CALLBACK_INCLUDE_POINT_TO_SAME cfg); [|reflexivity].
    destruct a as [[] [|ca]], b as [[] [|cb]]; simpl; try reflexivity.
    repeat case_bool_decide; congruence.
  - intros -> Ha Hb.
    destruct a as [[] [|ca]], b as [[] [|cb]]; simpl; try discriminate; eauto.
    exists (bool_decide (cb = ca)). split; [reflexivity|].
    repeat case_bool_decide; congruence.
Qed.

Lemma pointToSame_symmetric_witness :
  exists r : bool,
    pointToSame Program.host Program.int_int_int Program.world
      (mkCallback true (placed (FunctionCaller Program.sub)))
      (mkCallback true (placed (MethodCaller "Counter" Program.counter Program.Counter_bump)))
      [] = Returns (r, mkCallback true (placed (MethodCaller "Counter" Program.counter
                                                  Program.Counter_bump)), []) /\
    pointToSame Program.host Program.int_int_int Program.world
      (mkCallback true (placed (MethodCaller "Counter" Program.counter Program.Counter_bump)))
      (mkCallback true (placed (FunctionCaller Program.sub)))
      [] = Returns (r, mkCallback true (placed (FunctionCaller Program.sub)), []).
Proof.
  apply (pointToSame_symmetric Program.host Program.int_int_int Program.world
           (mkCallback true (placed (MethodCaller "Counter" Program.counter
                                       Program.Counter_bump)))
           (mkCallback true (placed (FunctionCaller Program.sub))) []);
    reflexivity.
Defined.

(** ** The binding never changes *)

Section Frame.
Context {W : Type}.

Lemma read_only_ret {A} (a : A) : read_only (@ret W A a).
Proof. intros this w a' this' w' [= _ <- _]. reflexivity. Qed.

Lemma read_only_bind {A B} (m : @member W A) (k : A -> @member W B) :
  read_only m -> (forall a, read_only (k a)) -> read_only (bind m k).
Proof.
  intros Hm Hk this w b this'' w''. unfold bind.
  destruct (m this w) as [[[a this'] w']| |] eqn:Em; try discriminate.
  intros Ek.
  apply Hm in Em. apply Hk in Ek. congruence.
Qed.

Lemma read_only_build_fails {A} (e : build_error) : read_only (@build_fails W A e).
Proof. intros this w a this' w'. discriminate. Qed.

Lemma read_only_undefined {A} : read_only (@undefined W A).
Proof. intros this w a this' w'. discriminate. Qed.

Lemma read_only_load_callbackSet : read_only (@load_callbackSet W).
Proof. intros this w a this' w' [= _ <- _]. reflexivity. Qed.

Lemma read_only_external {A} (f : W -> A * W) : read_only (external f).
Proof.
  intros this w a this' w'. unfold external.
  destruct (f w). intros [= _ <- _]. reflexivity.
Qed.

Lemma read_only_buffer_callable : read_only (buffer_callable W).
Proof.
  intros this w a this' w'. unfold buffer_callable.
  destruct (_buffer this); [discriminate|].
  intros [= _ <- _]. reflexivity.
Qed.

Lemma read_only_buffer_pointer (other : Callback) : read_only (buffer_pointer W other).
Proof.
  unfold buffer_pointer.
  destruct (_buffer other); [apply read_only_undefined | apply read_only_ret].
Qed.
End Frame.

Create HintDb read_only.

#[export] Hint Resolve read_only_ret read_only_build_fails read_only_undefined
  read_only_load_callbackSet read_only_external read_only_buffer_callable
  read_only_buffer_pointer : read_only.

(** Walks through the body of a member function: binds, branches, and the
    primitive steps, none of which stores into [this]. *)
Ltac read_only_body :=
  repeat first
    [ progress auto with read_only
    | apply read_only_bind; [|intros ?]
    | match goal with
      | |- read_only (if ?b then _ else _) => destruct b
      end ].

Section FrameOfMembers.
Variable cfg : build_config.
Variable sig : signature.
Variable R : return_type.
Variable ArgTs : Type.
Variable W : Type.
Variable function_at : fun_ptr -> ArgTs -> W -> value_of R * W.
Variable method_at : type_name -> mem_fun_ptr -> obj_ptr -> ArgTs -> W -> value_of R * W.

Lemma read_only_call (args : ArgTs) :
  read_only (call R ArgTs W function_at method_at args).
Proof.
  unfold call, _call.
  generalize (InternalCallable_call R ArgTs W function_at method_at).
  destruct R; intros virtual_call; read_only_body.
Qed.

Lemma read_only_isCallbackSet : read_only (isCallbackSet W).
Proof. unfold isCallbackSet. read_only_body. Qed.

Lemma read_only_pointToSame (other : Callback) :
  read_only (pointToSame cfg sig W other).
Proof. unfold pointToSame, ifdef_POINT_TO_SAME. read_only_body. Qed.

Lemma read_only_pointToSame_CallbackCompare (otherCallable : CallbackCompare) :
  read_only (pointToSame_CallbackCompare cfg sig W otherCallable).
Proof.
  unfold pointToSame_CallbackCompare, ifdef_POINT_TO_SAME.
  pose proof (read_only_pointToSame (object otherCallable)).
  read_only_body.
Qed.

Lemma read_only_perform (op : operation ArgTs) :
  read_only (perform cfg sig R ArgTs W function_at method_at op).
Proof.
  pose proof read_only_call.
  pose proof read_only_isCallbackSet.
  pose proof read_only_pointToSame.
  pose proof read_only_pointToSame_CallbackCompare.
  destruct op; simpl;
    unfold operator_call, operator_eq, operator_eq_CallbackCompare, ifdef_POINT_TO_SAME;
    read_only_body.
Qed.

Lemma read_only_perform_all (ops : list (operation ArgTs)) :
  read_only (perform_all cfg sig R ArgTs W function_at method_at ops).
Proof.
  induction ops as [|op rest IH]; simpl.
  - apply read_only_ret.
  - pose proof (read_only_perform op). read_only_body.
Qed.

(** On the states the constructors leave behind, every operation
    returns. *)
Lemma call_returns (args : ArgTs) (this : Callback) (w : W) :
  well_formed this = true ->
  exists r w', call R ArgTs W function_at method_at args this w = Returns (r, this, w').
Proof.
  destruct this as [[] [|c]]; try discriminate; intros _.
  - rewrite call_bound.
    destruct (InternalCallable_call R ArgTs W function_at method_at c args w) as [r w'].
    eauto.
  - unfold call, _call.
    generalize (InternalCallable_call R ArgTs W function_at method_at).
    destruct R; intros virtual_call; eexists _, _; reflexivity.
Qed.

Lemma pointToSame_returns (other this : Callback) (w : W) :
  CONFIG_CALLBACK_INCLUDE_POINT_TO_SAME cfg = true ->
  well_formed this = true -> well_formed other = true ->
  exists r, pointToSame cfg sig W other this w = Returns (r, this, w).
Proof.
  intros Henabled Hthis Hother.
  rewrite pointToSame_unfold, Henabled.
  destruct this as [[] [|c]], other as [[] [|c']]; try discriminate; simpl; eauto.
Qed.

Lemma pointToSame_CallbackCompare_returns (otherCallable : CallbackCompare)
    (this : Callback) (w : W) :
  CONFIG_CALLBACK_INCLUDE_POINT_TO_SAME cfg = true ->
  well_formed this = true -> well_formed (object otherCallable) = true ->
  exists r, pointToSame_CallbackCompare cfg sig W otherCallable this w
              = Returns (r, this, w).
Proof.
  intros Henabled Hthis Hother.
  rewrite pointToSame_CallbackCompare_unfold, Henabled.
  case_decide; eauto using pointToSame_returns.
Qed.

Lemma perform_returns (op : operation ArgTs) (this : Callback) (w : W) :
  CONFIG_CALLBACK_INCLUDE_POINT_TO_SAME cfg = true ->
  well_formed this = true -> operand_ok op ->
  exists o w',
    perform cfg sig R ArgTs W function_at method_at op this w = Returns (o, this, w').
Proof.
  intros Henabled Hthis Hop.
  destruct op as [args|args| |other|otherCallable|other|otherCallable];
    simpl in *; unfold bind.
  - destruct (call_returns args this w Hthis) as (r & w' & ->). eexists _, _; reflexivity.
  - unfold operator_call.
    destruct (call_returns args this w Hthis) as (r & w' & ->). eexists _, _; reflexivity.
  - eexists _, _; reflexivity.
  - destruct (pointToSame_returns other this w Henabled Hthis Hop) as (r & ->).
    eexists _, _; reflexivity.
  - destruct (pointToSame_CallbackCompare_returns otherCallable this w
                Henabled Hthis Hop) as (r & ->).
    eexists _, _; reflexivity.
  - rewrite operator_eq_unfold by assumption.
    destruct (pointToSame_returns other this w Henabled Hthis Hop) as (r & ->).
    eexists _, _; reflexivity.
  - rewrite operator_eq_CallbackCompare_unfold by assumption.
    destruct (pointToSame_CallbackCompare_returns otherCallable this w
                Henabled Hthis Hop) as (r & ->).
    eexists _, _; reflexivity.
Qed.

Lemma perform_all_returns (ops : list (operation ArgTs)) (this : Callback) (w : W) :
  CONFIG_CALLBACK_INCLUDE_POINT_TO_SAME cfg = true ->
  well_formed this = true -> Forall operand_ok ops ->
  exists os w',
    perform_all cfg sig R ArgTs W function_at method_at ops this w
      = Returns (os, this, w').
Proof.
  intros Henabled Hthis Hops. revert w.
  induction Hops as [|op rest Hop _ IH]; intros w; simpl.
  - eexists _, _; reflexivity.
  - unfold bind at 1.
    destruct (perform_returns op this w Henabled Hthis Hop) as (o & w1 & ->).
    unfold bind at 1.
    destruct (IH w1) as (os & w2 & ->).
    eexists _, _; reflexivity.
Qed.
End FrameOfMembers.

(** C7: no operation applied after construction ([call], [operator()],
    [isCallbackSet], [pointToSame], [operator==], in any number and order)
    changes the handle: when the sequence returns, the flag and the buffer
    with its addresses are as before, [isCallbackSet()] gives what it gave
    before, and a comparison with any other handle, in either direction,
    gives what it gave before.  On a handle as the constructors leave it,
    with comparison enabled, the sequence does return. *)
Theorem operations_keep_binding
    (cfg : build_config) (sig : signature) (R : return_type) (ArgTs W : Type)
    (function_at : fun_ptr -> ArgTs -> W -> value_of R * W)
    (method_at : type_name -> mem_fun_ptr -> obj_ptr -> ArgTs -> W -> value_of R * W)
    (ops : list (operation ArgTs)) (this : Callback) (w : W) :
  (forall os this' w',
     perform_all cfg sig R ArgTs W function_at method_at ops this w
       = Returns (os, this', w') ->
     _callbackSet this' = _callbackSet this /\
     _buffer this' = _buffer this /\
     result (isCallbackSet W this' w') = result (isCallbackSet W this w) /\
     (forall other,
        result (pointToSame cfg sig W other this' w')
          = result (pointToSame cfg sig W other this w) /\
        result (pointToSame cfg sig W this' other w')
          = result (pointToSame cfg sig W this other w))) /\
  (CONFIG_CALLBACK_INCLUDE_POINT_TO_SAME cfg = true ->
   well_formed this = true ->
   Forall operand_ok ops ->
   exists os w',
     perform_all cfg sig R ArgTs W function_at method_at ops this w
       = Returns (os, this, w')).
Proof.
  split.
  - intros os this' w' Hrun.
    apply read_only_perform_all in Hrun. subst this'.
    repeat split; auto using pointToSame_any_world.
  - apply perform_all_returns.
Qed.

Lemma operations_keep_binding_witness :
  let h1 := mkCallback true (placed (FunctionCaller Program.add)) in
  let h2 := mkCallback false zero_filled in
  let ops := [do_call (2, 3)%Z; do_isCallbackSet; do_operator_eq h2;
              do_operator_call (1, 1)%Z; do_pointToSame h1] in
  (exists os w',
     perform_all Program.host Program.int_int_int Program.int (Z * Z) Program.world
       Program.function_at Program.method_at ops h1 [] = Returns (os, h1, w')) /\
  (result (isCallbackSet Program.world h1 ["add"; "add"])
     = result (isCallbackSet Program.world h1 []) /\
   forall other,
     result (pointToSame Program.host Program.int_int_int Program.world other h1
               ["add"; "add"])
       = result (pointToSame Program.host Program.int_int_int Program.world other h1 []) /\
     result (pointToSame Program.host Program.int_int_int Program.world h1 other
               ["add"; "add"])
       = result (pointToSame Program.host Program.int_int_int Program.world h1 other [])).
Proof.
  intros h1 h2 ops.
  destruct (operations_keep_binding Program.host Program.int_int_int Program.int (Z * Z)
              Program.world Program.function_at Program.method_at ops h1 [])
    as [Hframe Hreturns].
  split.
  - apply Hreturns.
    + reflexivity.
    + reflexivity.
    + repeat constructor.
  - apply (Hframe [returned 5%Z; answered true; answered false; returned 2%Z; answered true]
             h1 ["add"; "add"]).
    reflexivity.
Defined.

(** ** The compile-time size checks *)

(** C8: the size checks reject the build.  When the function caller is
    larger than the buffer, the constructor from a function address does
    not build, for any address; when the method caller for a class [T] has
    not exactly the size of the buffer, the constructor from an object and
    a member function of [T] does not build, for any addresses.  Hence a
    handle that any constructor returned never holds a caller larger than
    the buffer. *)
Theorem size_checks_guard_the_buffer
    (cfg : build_config) (sizeof : type_info -> N) (sig : signature) (W : Type) :
  (forall (func : fun_ptr) (raw : Callback) (w : W),
     (CALLBACK_INTERNAL_BUFFER_SIZE cfg < sizeof (ti_FunctionCaller sig))%N ->
     Callback_function cfg sizeof sig W func raw w
       = BuildFails (static_assertion "Internal Buffer is too small!")) /\
  (forall (T : type_name) (obj : obj_ptr) (method : mem_fun_ptr) (raw : Callback) (w : W),
     sizeof (ti_MethodCaller sig T) <> CALLBACK_INTERNAL_BUFFER_SIZE cfg ->
     exists msg,
       Callback_method cfg sizeof sig W T obj method raw w
         = BuildFails (static_assertion msg)) /\
  (forall (b : binding) (raw cb : Callback) (w w' : W) (c : InternalCallable),
     construct cfg sizeof sig b raw w = Returns (tt, cb, w') ->
     _buffer cb = placed c ->
     (sizeof (typeid_callable sig c) <= CALLBACK_INTERNAL_BUFFER_SIZE cfg)%N).
Proof.
  split; [|split].
  - intros func raw w Hbig.
    rewrite Callback_function_spec.
    rewrite bool_decide_eq_false_2 by lia. reflexivity.
  - intros T obj method raw w Hsize.
    apply Callback_method_rejects. assumption.
  - intros b raw cb w w' c Hcb Hc.
    destruct b as [|func|T obj method]; simpl in Hcb.
    + rewrite Callback_default_spec in Hcb. injection Hcb as <- <-. discriminate.
    + rewrite Callback_function_spec in Hcb.
      case_bool_decide as Hfit; [|discriminate].
      case_bool_decide; injection Hcb as <- <-; [discriminate|].
      injection Hc as <-. exact Hfit.
    + destruct (decide (sizeof (ti_MethodCaller sig T) = CALLBACK_INTERNAL_BUFFER_SIZE cfg))
        as [Hsize|Hsize].
      * rewrite Callback_method_fits in Hcb by assumption.
        destruct (_ || _); injection Hcb as <- <-; [discriminate|].
        injection Hc as <-. simpl. lia.
      * destruct (Callback_method_rejects cfg sizeof sig W T obj method raw w Hsize)
          as [msg Hfail].
        congruence.
Qed.

Lemma size_checks_guard_the_buffer_witness :
  Callback_function Program.target Program.wide_sizeof Program.int_int_int Program.world
    Program.add Program.raw []
    = BuildFails (static_assertion "Internal Buffer is too small!") /\
  (exists msg,
     Callback_method Program.target Program.wide_sizeof Program.int_int_int Program.world
       "Counter" Program.counter Program.Counter_bump Program.raw []
       = BuildFails (static_assertion msg)) /\
  (Program.host_sizeof
     (typeid_callable Program.int_int_int
        (MethodCaller "Counter" Program.counter Program.Counter_bump))
     <= CALLBACK_INTERNAL_BUFFER_SIZE Program.host)%N.
Proof.
  destruct (size_checks_guard_the_buffer Program.target Program.wide_sizeof
              Program.int_int_int Program.world) as (Hfunction & Hmethod & _).
  destruct (size_checks_guard_the_buffer Program.host Program.host_sizeof
              Program.int_int_int Program.world) as (_ & _ & Hheld).
  split; [|split].
  - apply Hfunction. reflexivity.
  - apply Hmethod. vm_compute. discriminate.
  - apply (Hheld (from_method "Counter" Program.counter Program.Counter_bump)
             Program.raw
             (mkCallback true
                (placed (MethodCaller "Counter" Program.counter Program.Counter_bump)))
             [] []).
    + reflexivity.
    + reflexivity.
Defined.


(** ** Further properties of the header *)

(** On handles as the constructors leave them, a comparison answers
    whether the two handles are in the same state. *)
Lemma pointToSame_decides_state
    (cfg : build_config) (sig : signature) (W : Type) (a b : Callback) (w : W) :
  CONFIG_CALLBACK_INCLUDE_POINT_TO_SAME cfg = true ->
  well_formed a = true -> well_formed b = true ->
  pointToSame cfg sig W b a w = Returns (bool_decide (a = b), a, w).
Proof.
  intros Henabled Ha Hb.
  rewrite pointToSame_unfold, Henabled.
  destruct a as [[] [|ca]], b as [[] [|cb]]; try discriminate; simpl;
    repeat case_bool_decide; congruence.
Qed.

(** X1: whatever a constructor returns satisfies the invariant of the
    handle (the flag is set exactly when a caller was placed, and a placed
    caller holds no null address); the constructor leaves the world alone,
    and the handle it builds does not depend on what the storage held
    before. *)
Theorem constructors_establish_invariant
    (cfg : build_config) (sizeof : type_info -> N) (sig : signature) (W : Type)
    (b : binding) (raw cb : Callback) (w w' : W) :
  construct cfg sizeof sig b raw w = Returns (tt, cb, w') ->
  well_formed cb = true /\
  w' = w /\
  (forall (raw0 : Callback) (w0 : W),
     construct cfg sizeof sig b raw0 w0 = Returns (tt, cb, w0)).
Proof.
  intros Hcb.
  destruct (construct_well_formed cfg sizeof sig W b raw cb w w' Hcb) as [Hwf ->].
  split; [exact Hwf|]. split; [reflexivity|].
  intros raw0 w0.
  destruct b as [|func|T obj method]; simpl in *.
  - rewrite Callback_default_spec in *. congruence.
  - rewrite Callback_function_spec in *.
    repeat case_bool_decide; congruence.
  - destruct (decide (sizeof (ti_MethodCaller sig T) = CALLBACK_INTERNAL_BUFFER_SIZE cfg))
      as [Hsize|Hsize].
    + rewrite Callback_method_fits in * by assumption.
      destruct (_ || _); congruence.
    + destruct (Callback_method_rejects cfg sizeof sig W T obj method raw w Hsize)
        as [msg Hfail].
      congruence.
Qed.

Lemma constructors_establish_invariant_witness :
  well_formed (mkCallback true (placed (FunctionCaller Program.sub))) = true /\
  ["x"] = ["x"] /\
  (forall (raw0 : Callback) (w0 : Program.world),
     construct Program.host Program.host_sizeof Program.int_int_int
       (from_function Program.sub) raw0 w0
       = Returns (tt, mkCallback true (placed (FunctionCaller Program.sub)), w0)).
Proof.
  apply (constructors_establish_invariant Program.host Program.host_sizeof
           Program.int_int_int Program.world (from_function Program.sub) Program.raw
           (mkCallback true (placed (FunctionCaller Program.sub))) ["x"] ["x"]).
  reflexivity.
Defined.



(** X3: [_checkSizeEqual] passes exactly when the checked class has the
    expected size.  A larger class stops at the first assertion, "Internal
    Buffer is too small!"; a smaller class passes the first and stops at
    the second, "Internal Buffer is too big!". *)
Theorem _checkSizeEqual_outcome
    (sizeof : type_info -> N) (W : Type) (ToCheck : type_info) (ExpectedSize : N)
    (this : Callback) (w : W) :
  _checkSizeEqual sizeof W ToCheck ExpectedSize this w =
    match (sizeof ToCheck ?= ExpectedSize)%N with
    | Eq => Returns (tt, this, w)
    | Gt => BuildFails (static_assertion "Internal Buffer is too small!")
    | Lt => BuildFails (static_assertion "Internal Buffer is too big!")
    end.
Proof.
  unfold _checkSizeEqual, bind.
  destruct (N.compare_spec (sizeof ToCheck) ExpectedSize) as [Heq|Hlt|Hgt].
  - rewrite !bool_decide_eq_true_2 by lia. reflexivity.
  - rewrite bool_decide_eq_true_2 by lia. simpl.
    rewrite bool_decide_eq_false_2 by lia. reflexivity.
  - rewrite bool_decide_eq_false_2 by lia. reflexivity.
Qed.

(** X4: with comparison enabled, [pointToSame] is reflexive and transitive
    on handles that satisfy the invariant of the constructors (with the
    symmetry shown above, an equivalence). *)
Theorem pointToSame_reflexive_transitive
    (cfg : build_config) (sig : signature) (W : Type) (a b c : Callback) (w : W) :
  CONFIG_CALLBACK_INCLUDE_POINT_TO_SAME cfg = true ->
  well_formed a = true -> well_formed b = true -> well_formed c = true ->
  pointToSame cfg sig W a a w = Returns (true, a, w) /\
  (pointToSame cfg sig W b a w = Returns (true, a, w) ->
   pointToSame cfg sig W c b w = Returns (true, b, w) ->
   pointToSame cfg sig W c a w = Returns (true, a, w)).
Proof.
  intros Henabled Ha Hb Hc.
  rewrite !pointToSame_decides_state by assumption.
  split.
  - rewrite bool_decide_eq_true_2 by reflexivity. reflexivity.
  - intros [= Hab] [= Hbc].
    apply bool_decide_eq_true_1 in Hab, Hbc.
    rewrite bool_decide_eq_true_2 by congruence. reflexivity.
Qed.

Lemma pointToSame_reflexive_transitive_witness :
  let h := mkCallback true
             (placed (MethodCaller "Counter" Program.counter Program.Counter_bump)) in
  pointToSame Program.host Program.int_int_int Program.world h h [] = Returns (true, h, []) /\
  (pointToSame Program.host Program.int_int_int Program.world h h [] = Returns (true, h, []) ->
   pointToSame Program.host Program.int_int_int Program.world h h [] = Returns (true, h, []) ->
   pointToSame Program.host Program.int_int_int Program.world h h [] = Returns (true, h, [])).
Proof.
  intros h.
  apply (pointToSame_reflexive_transitive Program.host Program.int_int_int Program.world
           h h h []); reflexivity.
Defined.

(** X5: with comparison enabled, two handles that satisfy the invariant
    and compare equal are interchangeable: they are in the same state, so
    [call] with the same arguments in the same world does the same through
    either. *)
Theorem same_destination_same_call
    (cfg : build_config) (sig : signature) (R : return_type) (ArgTs W : Type)
    (function_at : fun_ptr -> ArgTs -> W -> value_of R * W)
    (method_at : type_name -> mem_fun_ptr -> obj_ptr -> ArgTs -> W -> value_of R * W)
    (a b : Callback) (w : W) :
  CONFIG_CALLBACK_INCLUDE_POINT_TO_SAME cfg = true ->
  well_formed a = true -> well_formed b = true ->
  pointToSame cfg sig W b a w = Returns (true, a, w) ->
  a = b /\
  (forall (args : ArgTs) (w0 : W),
     result (call R ArgTs W function_at method_at args a w0)
       = result (call R ArgTs W function_at method_at args b w0) /\
     exists (r : value_of R) (w1 : W),
       call R ArgTs W function_at method_at args a w0 = Returns (r, a, w1) /\
       call R ArgTs W function_at method_at args b w0 = Returns (r, b, w1)).
Proof.
  intros Henabled Ha Hb Hsame.
  rewrite pointToSame_decides_state in Hsame by assumption.
  injection Hsame as Hab. apply bool_decide_eq_true_1 in Hab. subst b.
  split; [reflexivity|].
  intros args w0. split; [reflexivity|].
  destruct (call_returns R ArgTs W function_at method_at args a w0 Ha) as (r & w1 & ->).
  eauto.
Qed.

Lemma same_destination_same_call_witness :
  let h1 := mkCallback true (placed (FunctionCaller Program.add)) in
  let h3 := mkCallback true (placed (FunctionCaller Program.add)) in
  h1 = h3 /\
  (forall (args : Z * Z) (w0 : Program.world),
     result (call Program.int (Z * Z) Program.world Program.function_at Program.method_at
               args h1 w0)
       = result (call Program.int (Z * Z) Program.world Program.function_at
                   Program.method_at args h3 w0) /\
     exists (r : Z) (w1 : Program.world),
       call Program.int (Z * Z) Program.world Program.function_at Program.method_at
         args h1 w0 = Returns (r, h1, w1) /\
       call Program.int (Z * Z) Program.world Program.function_at Program.method_at
         args h3 w0 = Returns (r, h3, w1)).
Proof.
  intros h1 h3.
  apply (same_destination_same_call Program.host Program.int_int_int Program.int (Z * Z)
           Program.world Program.function_at Program.method_at h1 h3 []);
    reflexivity.
Defined.

(** The answer of a comparison is the same in both directions, for all
    states of the two handles. *)
Lemma pointToSame_result_swap
    (cfg : build_config) (sig : signature) (W : Type) (a b : Callback) (w : W) :
  result (pointToSame cfg sig W b a w) = result (pointToSame cfg sig W a b w).
Proof.
  rewrite !pointToSame_unfold.
  destruct (CONFIG_CALLBACK_INCLUDE_POINT_TO_SAME cfg); [|reflexivity].
  destruct a as [[] [|ca]], b as [[] [|cb]]; simpl; try reflexivity.
  repeat case_bool_decide; congruence.
Qed.

(** X6: seen through [CallbackCompare], a handle of the same signature is
    compared exactly as it is compared directly: [pointToSame(const
    CallbackCompare &)] gives what [pointToSame(const Callback &)] gives,
    and the two [operator==] agree likewise, in every build and for all
    states of the two handles. *)
Theorem same_signature_opaque_is_direct
    (cfg : build_config) (sig : signature) (W : Type) (other this : Callback) (w : W) :
  pointToSame_CallbackCompare cfg sig W (as_CallbackCompare sig other) this w
    = pointToSame cfg sig W other this w /\
  operator_eq_CallbackCompare cfg sig W (as_CallbackCompare sig other) this w
    = operator_eq cfg sig W other this w.
Proof.
  assert (Hdirect :
    pointToSame_CallbackCompare cfg sig W (as_CallbackCompare sig other) this w
      = pointToSame cfg sig W other this w).
  { rewrite pointToSame_CallbackCompare_unfold.
    unfold as_CallbackCompare, typeid_this; simpl.
    rewrite decide_True by reflexivity.
    destruct (CONFIG_CALLBACK_INCLUDE_POINT_TO_SAME cfg) eqn:Henabled; [reflexivity|].
    rewrite pointToSame_unfold, Henabled. reflexivity. }
  split; [exact Hdirect|].
  destruct (CONFIG_CALLBACK_INCLUDE_POINT_TO_SAME cfg) eqn:Henabled.
  - rewrite operator_eq_CallbackCompare_unfold, operator_eq_unfold by assumption.
    exact Hdirect.
  - unfold operator_eq_CallbackCompare, operator_eq, ifdef_POINT_TO_SAME.
    rewrite Henabled. reflexivity.
Qed.

(** X7: comparison through [CallbackCompare] is symmetric across
    signatures: for a handle [a] of signature [sig1] and a handle [b] of
    signature [sig2], equal or not, [a.pointToSame(b)] and
    [b.pointToSame(a)], each seeing the other through the interface, give
    the same answer. *)
Theorem opaque_comparison_symmetric
    (cfg : build_config) (sig1 sig2 : signature) (W : Type) (a b : Callback) (w : W) :
  result (pointToSame_CallbackCompare cfg sig1 W (as_CallbackCompare sig2 b) a w) =
  result (pointToSame_CallbackCompare cfg sig2 W (as_CallbackCompare sig1 a) b w).
Proof.
  rewrite !pointToSame_CallbackCompare_unfold.
  destruct (CONFIG_CALLBACK_INCLUDE_POINT_TO_SAME cfg); [|reflexivity].
  unfold as_CallbackCompare, typeid_this; simpl.
  destruct (decide (sig1 = sig2)) as [->|Hne].
  - rewrite !decide_True by reflexivity. apply pointToSame_result_swap.
  - rewrite !decide_False by congruence. reflexivity.
Qed.

(** X8: the handle a [callback(...)] helper returns is bound exactly when
    every pointer it was given is non-null.  For [callback(func)] that is
    the function address; for [callback(obj, method)] by pointer, both
    addresses; for [callback(obj, method)] by reference, where the object
    exists, the member-function address alone.  By reference and by pointer
    to the same object give the same handle. *)
Theorem callback_helpers_bound_iff_non_null
    (cfg : build_config) (sizeof : type_info -> N) (sig : signature) (W : Type) :
  (forall (func : fun_ptr) (raw : Callback) (w : W),
     (sizeof (ti_FunctionCaller sig) <= CALLBACK_INTERNAL_BUFFER_SIZE cfg)%N ->
     exists cb,
       callback_function cfg sizeof sig func raw w = Returns (tt, cb, w) /\
       (_callbackSet cb = true <-> func <> nullptr)) /\
  (forall (T : type_name) (obj : obj_ptr) (method : mem_fun_ptr) (raw : Callback) (w : W),
     sizeof (ti_MethodCaller sig T) = CALLBACK_INTERNAL_BUFFER_SIZE cfg ->
     exists cb,
       callback_pointer cfg sizeof sig T obj method raw w = Returns (tt, cb, w) /\
       (_callbackSet cb = true <-> obj <> nullptr /\ method <> nullptr)) /\
  (forall (T : type_name) (obj : obj_ptr) (method : mem_fun_ptr) (raw : Callback) (w : W),
     sizeof (ti_MethodCaller sig T) = CALLBACK_INTERNAL_BUFFER_SIZE cfg ->
     obj <> nullptr ->
     exists cb,
       callback_reference cfg sizeof sig T obj method raw w = Returns (tt, cb, w) /\
       callback_pointer cfg sizeof sig T obj method raw w = Returns (tt, cb, w) /\
       (_callbackSet cb = true <-> method <> nullptr)).
Proof.
  split; [|split].
  - intros func raw w Hfit.
    unfold callback_function. rewrite Callback_function_spec.
    rewrite bool_decide_eq_true_2 by assumption.
    case_bool_decide; eexists; (split; [reflexivity|]); simpl; split;
      congruence.
  - intros T obj method raw w Hsize.
    unfold callback_pointer. rewrite Callback_method_fits by assumption.
    repeat case_bool_decide; simpl; eexists; (split; [reflexivity|]); simpl;
      intuition congruence.
  - intros T obj method raw w Hsize Hobj.
    unfold callback_reference, callback_pointer.
    rewrite Callback_method_fits by assumption.
    rewrite (bool_decide_eq_false_2 (obj = nullptr)) by assumption.
    case_bool_decide; simpl; eexists; (split; [reflexivity|]);
      (split; [reflexivity|]); simpl; intuition congruence.
Qed.

Lemma callback_helpers_bound_iff_non_null_witness :
  (exists cb,
     callback_function Program.host Program.host_sizeof Program.int_int_int
       Program.add Program.raw ([] : Program.world) = Returns (tt, cb, []) /\
     (_callbackSet cb = true <-> Program.add <> nullptr)) /\
  (exists cb,
     callback_pointer Program.host Program.host_sizeof Program.int_int_int
       "Counter" nullptr Program.Counter_bump Program.raw ([] : Program.world)
       = Returns (tt, cb, []) /\
     (_callbackSet cb = true <-> nullptr <> nullptr /\ Program.Counter_bump <> nullptr)) /\
  (exists cb,
     callback_reference Program.host Program.host_sizeof Program.int_int_int
       "Counter" Program.counter Program.Counter_bump Program.raw ([] : Program.world)
       = Returns (tt, cb, []) /\
     callback_pointer Program.host Program.host_sizeof Program.int_int_int
       "Counter" Program.counter Program.Counter_bump Program.raw ([] : Program.world)
       = Returns (tt, cb, []) /\
     (_callbackSet cb = true <-> Program.Counter_bump <> nullptr)).
Proof.
  destruct (callback_helpers_bound_iff_non_null Program.host Program.host_sizeof
              Program.int_int_int Program.world) as (Hfunction & Hpointer & Hreference).
  split; [|split].
  - apply Hfunction. vm_compute. discriminate.
  - apply Hpointer. reflexivity.
  - apply Hreference.
    + reflexivity.
    + vm_compute. discriminate.
Defined.



(** X10: [tryCompare] returns true exactly when the other pointer is not
    null and points to a caller of the same class that holds the same
    addresses: the same function address for a function caller, the same
    object address and the same member-function address for a method
    caller of the same class. *)
Theorem tryCompare_true_iff_same_caller
    (sig : signature) (c : InternalCallable) (otherPtr : option InternalCallable) :
  InternalCallable_tryCompare sig c otherPtr = true <-> otherPtr = Some c.
Proof.
  destruct otherPtr as [other|].
  - rewrite InternalCallable_tryCompare_Some.
    rewrite bool_decide_eq_true. split; congruence.
  - destruct c; simpl; split; discriminate.
Qed.

(** X11: only running the bound code can change the world.
    [isCallbackSet], both [pointToSame] and both [operator==] return with
    the world as it was, and so do [call] and [operator()] on a handle
    whose flag is not set. *)
Theorem only_bound_call_changes_world
    (cfg : build_config) (sig : signature) (R : return_type) (ArgTs W : Type)
    (function_at : fun_ptr -> ArgTs -> W -> value_of R * W)
    (method_at : type_name -> mem_fun_ptr -> obj_ptr -> ArgTs -> W -> value_of R * W)
    (op : operation ArgTs) (this this' : Callback)
    (o : observation (value_of R)) (w w' : W) :
  perform cfg sig R ArgTs W function_at method_at op this w = Returns (o, this', w') ->
  match op with
  | do_call _ | do_operator_call _ => _callbackSet this = false
  | _ => True
  end ->
  w' = w.
Proof.
  assert (Hcompare : forall other b this0 (w0 : W),
            pointToSame cfg sig W other this w = Returns (b, this0, w0) -> w0 = w).
  { intros other b this0 w0. rewrite pointToSame_unfold.
    destruct (CONFIG_CALLBACK_INCLUDE_POINT_TO_SAME cfg), this as [[] [|c]],
      other as [[] [|c']]; simpl; congruence. }
  assert (Hopaque : forall otherCallable b this0 (w0 : W),
            pointToSame_CallbackCompare cfg sig W otherCallable this w
              = Returns (b, this0, w0) -> w0 = w).
  { intros otherCallable b this0 w0. rewrite pointToSame_CallbackCompare_unfold.
    destruct (CONFIG_CALLBACK_INCLUDE_POINT_TO_SAME cfg); [|discriminate].
    case_decide; [apply Hcompare|congruence]. }
  destruct op as [args|args| |other|otherCallable|other|otherCallable];
    simpl; unfold bind at 1; intros Hrun Hop.
  - revert Hrun. unfold call, _call.
    generalize (InternalCallable_call R ArgTs W function_at method_at).
    destruct R; intros virtual_call; unfold bind, load_callbackSet, ret;
      rewrite Hop; simpl; congruence.
  - revert Hrun. unfold operator_call, call, _call.
    generalize (InternalCallable_call R ArgTs W function_at method_at).
    destruct R; intros virtual_call; unfold bind, load_callbackSet, ret;
      rewrite Hop; simpl; congruence.
  - unfold isCallbackSet, load_callbackSet, ret in Hrun. congruence.
  - destruct (pointToSame cfg sig W other this w) as [[[b this0] w0]| |] eqn:E;
      try discriminate.
    injection Hrun as _ _ <-. eapply Hcompare; eauto.
  - destruct (pointToSame_CallbackCompare cfg sig W otherCallable this w)
      as [[[b this0] w0]| |] eqn:E; try discriminate.
    injection Hrun as _ _ <-. eapply Hopaque; eauto.
  - revert Hrun. unfold operator_eq, ifdef_POINT_TO_SAME at 1.
    destruct (CONFIG_CALLBACK_INCLUDE_POINT_TO_SAME cfg); [|discriminate].
    destruct (pointToSame cfg sig W other this w) as [[[b this0] w0]| |] eqn:E;
      try discriminate.
    intros [= _ _ <-]. eapply Hcompare; eauto.
  - revert Hrun. unfold operator_eq_CallbackCompare, ifdef_POINT_TO_SAME at 1.
    destruct (CONFIG_CALLBACK_INCLUDE_POINT_TO_SAME cfg) eqn:Henabled; [|discriminate].
    destruct (pointToSame_CallbackCompare cfg sig W otherCallable this w)
      as [[[b this0] w0]| |] eqn:E; try discriminate.
    intros [= _ _ <-]. eapply Hopaque; eauto.
Qed.

Lemma only_bound_call_changes_world_witness :
  ["add"] = ["add"].
Proof.
  apply (only_bound_call_changes_world Program.host Program.int_int_int Program.int (Z * Z)
           Program.world Program.function_at Program.method_at
           (do_operator_eq (mkCallback false zero_filled))
           (mkCallback true (placed (FunctionCaller Program.add)))
           (mkCallback true (placed (FunctionCaller Program.add)))
           (answered false) ["add"] ["add"]).
  - reflexivity.
  - exact I.
Defined.

(** X12: a bound handle can be invoked any number of times.  A sequence of
    [call]s through a handle whose buffer holds a caller runs the bound
    code once per call, in the order of the calls and with the arguments
    of each call, every run starting in the world the previous one left;
    the values come back in that order, and the handle is as it was. *)
Theorem repeated_calls_run_bound_code_in_order
    (cfg : build_config) (sig : signature) (R : return_type) (ArgTs W : Type)
    (function_at : fun_ptr -> ArgTs -> W -> value_of R * W)
    (method_at : type_name -> mem_fun_ptr -> obj_ptr -> ArgTs -> W -> value_of R * W)
    (this : Callback) (c : InternalCallable) (argss : list ArgTs) (w : W) :
  _callbackSet this = true ->
  _buffer this = placed c ->
  perform_all cfg sig R ArgTs W function_at method_at (map do_call argss) this w =
    let (vs, w') :=
      run_in_order (InternalCallable_call R ArgTs W function_at method_at c) argss w in
    Returns (map returned vs, this, w').
Proof.
  intros Hset Hbuffer.
  destruct this as [set buf]; simpl in Hset, Hbuffer; subst set buf.
  revert w.
  induction argss as [|args rest IH]; intros w; simpl.
  - reflexivity.
  - unfold bind at 1 2. rewrite call_bound.
    destruct (InternalCallable_call R ArgTs W function_at method_at c args w) as [v w1].
    unfold ret at 1. unfold bind at 1. rewrite IH.
    destruct (run_in_order _ rest w1) as [vs w2].
    reflexivity.
Qed.

Lemma repeated_calls_run_bound_code_in_order_witness :
  perform_all Program.host Program.int_int_int Program.int (Z * Z) Program.world
    Program.function_at Program.method_at
    (map do_call [(2, 3)%Z; (10, 20)%Z])
    (mkCallback true (placed (FunctionCaller Program.add))) [] =
    let (vs, w') :=
      run_in_order
        (InternalCallable_call Program.int (Z * Z) Program.world
           Program.function_at Program.method_at (FunctionCaller Program.add))
        [(2, 3)%Z; (10, 20)%Z] [] in
    Returns (map returned vs, mkCallback true (placed (FunctionCaller Program.add)), w').
Proof.
  apply (repeated_calls_run_bound_code_in_order Program.host Program.int_int_int
           Program.int (Z * Z) Program.world Program.function_at Program.method_at
           (mkCallback true (placed (FunctionCaller Program.add)))
           (FunctionCaller Program.add) [(2, 3)%Z; (10, 20)%Z] []);
    reflexivity.
Defined.
